(** * fx-logr: the fxevent-to-logr adapter

    A shallow embedding of [logr.go] (package [fxlogr]) and of the minimal
    earlier logger found next to it.  The adapter receives the lifecycle
    events of [go.uber.org/fx/fxevent] and turns each of them into calls on a
    [logr.Logger].  The Go methods have a pointer receiver and talk to an
    external logger, so they are modelled as computations in a state monad
    whose state holds the receiver struct and the calls the logger received. *)

From Stdlib Require Import ZArith List String Ascii Bool Lia.
From ExtLib Require Import Structures.Monad Structures.MonadState.
From ExtLib Require Import Data.Monads.StateMonad.
Import ListNotations.
Import MonadNotation.

Local Open Scope string_scope.
Local Open Scope Z_scope.
Local Open Scope monad_scope.

(* ------------------------------------------------------------------ *)
(** ** Values that cross the adapter's boundary *)

(** Go's [error] interface: [None] is [nil], [Some m] an error whose
    [Error()] text is [m]. *)
Definition error := option string.

(** [e.Err != nil] *)
Definition notNil (err : error) : bool :=
  match err with
  | Some _ => true
  | None => false
  end.

(** The [interface{}] arguments of [keysAndValues]: the adapter only ever
    passes strings and the constant [true]. *)
Inductive value : Type :=
| VString (s : string)
| VBool (b : bool).

Coercion VString : string >-> value.

(** [time.Duration]: a signed 64-bit count of nanoseconds. *)
Definition Duration := Z.

Definition Nanosecond : Duration := 1.
Definition Microsecond : Duration := 1000 * Nanosecond.
Definition Millisecond : Duration := 1000 * Microsecond.
Definition Second : Duration := 1000 * Millisecond.

(** [os.Signal]: an interface value, observed through its [String] method. *)
Record Signal : Type := mkSignal { Signal_String : string }.

(** [os.Interrupt] *)
Definition Interrupt : Signal := mkSignal "interrupt".

(** A [*logr.Logger]: the address of the logger the adapter writes to.  The
    pointer is taken to be valid, as [WithLogr(&logger)] makes it; through a
    [nil] pointer the first call of a method would panic. *)
Definition LoggerRef := nat.

(* ------------------------------------------------------------------ *)
(** ** The events of fxevent (fx v1.19.2), with the fields the adapter reads

    [fxevent.Event] is a sealed interface; its sixteen implementations are
    the sixteen cases of the type switch in [LogEvent], and an event is a
    valid pointer to one of them. *)

Inductive Event : Type :=
| OnStartExecuting (FunctionName CallerName : string)
| OnStartExecuted (FunctionName CallerName : string) (Runtime : Duration)
                  (Err : error)
| OnStopExecuting (FunctionName CallerName : string)
| OnStopExecuted (FunctionName CallerName : string) (Runtime : Duration)
                 (Err : error)
| Supplied (TypeName ModuleName : string) (Err : error)
| Provided (ConstructorName : string) (OutputTypeNames : list string)
           (ModuleName : string) (Err : error) (Private : bool)
| Replaced (OutputTypeNames : list string) (ModuleName : string) (Err : error)
| Decorated (DecoratorName ModuleName : string)
            (OutputTypeNames : list string) (Err : error)
| Invoking (FunctionName ModuleName : string)
| Invoked (FunctionName ModuleName : string) (Err : error) (Trace : string)
| Stopping (Sig : Signal)
| Stopped (Err : error)
| RollingBack (StartErr : error)
| RolledBack (Err : error)
| Started (Err : error)
| LoggerInitialized (Err : error) (ConstructorName : string).

(* ------------------------------------------------------------------ *)
(** ** Calls on the logger *)

(** The two operations the adapter uses: [Info(msg, kv...)] and
    [Error(err, msg, kv...)]. *)
Inductive Method : Type :=
| Info
| Error (err : error).

(** One call [sink.V(V).Info(msg, kv...)] or [sink.V(V).Error(err, msg, kv...)].
    [V] is the argument handed to [logr.Logger.V], as the adapter passes it. *)
Record Call : Type := mkCall {
  sink : LoggerRef;
  V : Z;
  method : Method;
  msg : string;
  keysAndValues : list value
}.

(** [keysAndValues] is a flat list, key, value, key, value, ...; the keys sit
    at the even positions. *)
Fixpoint keys (kv : list value) : list value :=
  match kv with
  | k :: _ :: rest => k :: keys rest
  | [k] => [k]
  | [] => []
  end.

(** The same list read as pairs; a dangling last key is dropped. *)
Fixpoint fields (kv : list value) : list (value * value) :=
  match kv with
  | k :: v :: rest => (k, v) :: fields rest
  | _ => []
  end.

Definition isError (c : Call) : bool :=
  match method c with
  | Error _ => true
  | Info => false
  end.

Definition isInfo (c : Call) : bool := negb (isError c).

(* ------------------------------------------------------------------ *)
(** ** The receiver and the state monad *)

Record LogrLogger : Type := mkLogrLogger {
  Logger : LoggerRef;
  logLevel : Z;
  errorLevel : Z
}.

(** What a method can see and change: the struct behind the receiver pointer
    and the calls made on loggers so far, oldest first. *)
Record World : Type := mkWorld {
  this : LogrLogger;
  calls : list Call
}.

Definition Go := state World.

Definition self : Go LogrLogger :=
  w <- get ;; ret (this w).

Definition store (l : LogrLogger) : Go unit :=
  w <- get ;; put (mkWorld l (calls w)).

Definition invoke (c : Call) : Go unit :=
  w <- get ;; put (mkWorld (this w) (calls w ++ [c])).

(** [for _, x := range xs { body }] *)
Fixpoint forRange {A : Type} (xs : list A) (body : A -> Go unit) : Go unit :=
  match xs with
  | [] => ret tt
  | x :: rest => body x ;; forRange rest body
  end.

(* ------------------------------------------------------------------ *)
(** ** Library functions the adapter calls on event fields *)

Module GoLib.

(** [byte(digit) + '0'] *)
Definition digitByte (digit : Z) : ascii :=
  ascii_of_nat (Z.to_nat digit + 48).

(** The loop of [fmtFrac]: [prec] rounds, each taking the last decimal digit
    of [v]; digits are written from the first non-zero one on. *)
Fixpoint fmtFracLoop (prec : nat) (buf : string) (v : Z) (print : bool)
  : string * Z * bool :=
  match prec with
  | O => (buf, v, print)
  | S prec' =>
      let digit := v mod 10 in
      let print := print || negb (digit =? 0) in
      let buf := if print then String (digitByte digit) buf else buf in
      fmtFracLoop prec' buf (v / 10) print
  end.

(** Modelled from the spec: [fmtFrac] of Go's [time] package, which is not
    under src/.  It writes the fraction of [v / 10^prec] in front of [buf]
    without trailing zeros, and without the point when the fraction is
    zero; it returns the new buffer and [v / 10^prec]. *)
Definition fmtFrac (buf : string) (v : Z) (prec : nat) : string * Z :=
  let '(buf, v, print) := fmtFracLoop prec buf v false in
  (if print then String "." buf else buf, v).

(** The loop [for v > 0] of [fmtInt]; a 64-bit value has at most twenty
    decimal digits, which is the fuel [fmtInt] gives it. *)
Fixpoint fmtIntLoop (fuel : nat) (buf : string) (v : Z) : string :=
  match fuel with
  | O => buf
  | S fuel' =>
      if 0 <? v
      then fmtIntLoop fuel' (String (digitByte (v mod 10)) buf) (v / 10)
      else buf
  end.

(** Modelled from the spec: [fmtInt] of Go's [time] package, which is not
    under src/.  It writes [v] in decimal in front of [buf]. *)
Definition fmtInt (buf : string) (v : Z) : string :=
  if v =? 0 then String "0" buf else fmtIntLoop 20 buf v.

(** The two bytes of the micro sign in UTF-8. *)
Definition microSign (buf : string) : string :=
  String (ascii_of_nat 194) (String (ascii_of_nat 181) buf).

(** Modelled from the spec: [time.Duration.String] of the Go standard
    library, which is not under src/; the spec and the repository's test fix
    the rendering of three milliseconds as 3ms.  The buffer that Go fills
    from its end is the string built here from its tail. *)
Definition Duration_String (d : Duration) : string :=
  let u := Z.abs d in
  let neg := d <? 0 in
  let sign (buf : string) := if neg then String "-" buf else buf in
  if u <? Second then
    if u =? 0 then "0s"
    else
      let '(prec, buf) :=
        if u <? Microsecond then (0%nat, "ns")
        else if u <? Millisecond then (3%nat, microSign "s")
        else (6%nat, "ms") in
      let '(buf, u) := fmtFrac buf u prec in
      sign (fmtInt buf u)
  else
    let '(buf, u) := fmtFrac "s" u 9 in
    let buf := fmtInt buf (u mod 60) in
    let u := u / 60 in
    if 0 <? u then
      let buf := fmtInt (String "m" buf) (u mod 60) in
      let u := u / 60 in
      if 0 <? u then sign (fmtInt (String "h" buf) u) else sign buf
    else sign buf.

(** ['a' <= c && c <= 'z'] then [c -= 'a' - 'A'] *)
Definition upperByte (c : ascii) : ascii :=
  let n := nat_of_ascii c in
  if (97 <=? n)%nat && (n <=? 122)%nat then ascii_of_nat (n - 32) else c.

(** [c < utf8.RuneSelf] for every byte of [s]: the test by which
    [strings.ToUpper] takes its ASCII path. *)
Fixpoint isASCII (s : string) : bool :=
  match s with
  | EmptyString => true
  | String c rest => (nat_of_ascii c <? 128)%nat && isASCII rest
  end.

(** Modelled from the spec: the ASCII path of [strings.ToUpper] of the Go
    standard library, which is not under src/: the letters a to z are mapped
    to upper case and every other byte is kept.  This is what Go computes
    when [isASCII] holds, as it does for the names of the operating system's
    signals.  For other text Go maps the runes through its Unicode tables
    and replaces invalid UTF-8; that path is not modelled, and a statement
    about the value of [ToUpper] is made for ASCII text only. *)
Fixpoint ToUpper (s : string) : string :=
  match s with
  | EmptyString => EmptyString
  | String c rest => String (upperByte c) (ToUpper rest)
  end.

End GoLib.

(* ------------------------------------------------------------------ *)
(** ** logr.go *)

(** [len(s) != 0] *)
Definition nonEmpty (s : string) : bool :=
  negb (Nat.eqb (String.length s) 0).

(** [func (l *LogrLogger) UseLogLevel(level int)] *)
Definition UseLogLevel (level : Z) : Go unit :=
  l <- self ;;
  store (mkLogrLogger (Logger l) level (errorLevel l)).

(** [func (l *LogrLogger) UseErrorLevel(level int)] *)
Definition UseErrorLevel (level : Z) : Go unit :=
  l <- self ;;
  store (mkLogrLogger (Logger l) (logLevel l) level).

(** [l.Logger.V(l.logLevel).Info(msg, keysAndValues...)] *)
Definition logEvent (msg : string) (keysAndValues : list value) : Go unit :=
  l <- self ;;
  invoke (mkCall (Logger l) (logLevel l) Info msg keysAndValues).

(** [l.Logger.V(l.errorLevel).Error(err, msg, keysAndValues...)] *)
Definition logError (err : error) (msg : string) (keysAndValues : list value)
  : Go unit :=
  l <- self ;;
  invoke (mkCall (Logger l) (errorLevel l) (Error err) msg keysAndValues).

(** [func (l *LogrLogger) LogEvent(event fxevent.Event)]: the type switch,
    case by case and branch by branch as in the source. *)
Definition LogEvent (event : Event) : Go unit :=
  match event with
  | OnStartExecuting FunctionName CallerName =>
      logEvent "OnStart hook executing"
        ["callee" : value; VString FunctionName; "caller" : value;
         VString CallerName]
  | OnStartExecuted FunctionName CallerName Runtime Err =>
      if notNil Err then
        logError Err "OnStart hook failed"
          ["callee" : value; VString FunctionName; "caller" : value;
           VString CallerName]
      else
        logEvent "OnStart hook executed"
          ["callee" : value; VString FunctionName; "caller" : value;
           VString CallerName;
           "runtime" : value; VString (GoLib.Duration_String Runtime)]
  | OnStopExecuting FunctionName CallerName =>
      logEvent "OnStop hook executing"
        ["callee" : value; VString FunctionName; "caller" : value;
         VString CallerName]
  | OnStopExecuted FunctionName CallerName Runtime Err =>
      if notNil Err then
        logError Err "OnStop hook failed"
          ["callee" : value; VString FunctionName; "caller" : value;
           VString CallerName]
      else
        logEvent "OnStop hook executed"
          ["callee" : value; VString FunctionName; "caller" : value;
           VString CallerName;
           "runtime" : value; VString (GoLib.Duration_String Runtime)]
  | Supplied TypeName ModuleName Err =>
      if nonEmpty ModuleName then
        if notNil Err then
          logError Err "error encountered while applying options"
            ["type" : value; VString TypeName; "module" : value;
             VString ModuleName]
        else
          logEvent "supplied"
            ["type" : value; VString TypeName; "module" : value;
             VString ModuleName]
      else
        if notNil Err then
          logError Err "error encountered while applying options"
            ["type" : value; VString TypeName]
        else
          logEvent "supplied" ["type" : value; VString TypeName]
  | Provided ConstructorName OutputTypeNames ModuleName Err Private =>
      if nonEmpty ModuleName then
        forRange OutputTypeNames (fun rtype =>
          if Private then
            logEvent "provided"
              ["constructor" : value; VString ConstructorName;
               "module" : value; VString ModuleName;
               "type" : value; VString rtype;
               "private" : value; VBool true]
          else
            logEvent "provided"
              ["constructor" : value; VString ConstructorName;
               "module" : value; VString ModuleName;
               "type" : value; VString rtype]) ;;
        if notNil Err then
          logError Err "error encountered while applying options"
            ["module" : value; VString ModuleName]
        else ret tt
      else
        forRange OutputTypeNames (fun rtype =>
          if Private then
            logEvent "provided"
              ["constructor" : value; VString ConstructorName;
               "type" : value; VString rtype;
               "private" : value; VBool true]
          else
            logEvent "provided"
              ["constructor" : value; VString ConstructorName;
               "type" : value; VString rtype]) ;;
        if notNil Err then
          logError Err "error encountered while applying options" []
        else ret tt
  | Replaced OutputTypeNames ModuleName Err =>
      if nonEmpty ModuleName then
        forRange OutputTypeNames (fun rtype =>
          logEvent "replaced"
            ["module" : value; VString ModuleName;
             "type" : value; VString rtype]) ;;
        if notNil Err then
          logError Err "error encountered while replacing"
            ["module" : value; VString ModuleName]
        else ret tt
      else
        forRange OutputTypeNames (fun rtype =>
          logEvent "replaced" ["type" : value; VString rtype]) ;;
        if notNil Err then
          logError Err "error encountered while replacing" []
        else ret tt
  | Decorated DecoratorName ModuleName OutputTypeNames Err =>
      if nonEmpty ModuleName then
        forRange OutputTypeNames (fun rtype =>
          logEvent "decorated"
            ["decorator" : value; VString DecoratorName;
             "module" : value; VString ModuleName;
             "type" : value; VString rtype]) ;;
        if notNil Err then
          logError Err "error encountered while applying options"
            ["module" : value; VString ModuleName]
        else ret tt
      else
        forRange OutputTypeNames (fun rtype =>
          logEvent "decorated"
            ["decorator" : value; VString DecoratorName;
             "type" : value; VString rtype]) ;;
        if notNil Err then
          logError Err "error encountered while applying options" []
        else ret tt
  | Invoking FunctionName ModuleName =>
      if nonEmpty ModuleName then
        logEvent "invoking"
          ["function" : value; VString FunctionName;
           "module" : value; VString ModuleName]
      else
        logEvent "invoking" ["function" : value; VString FunctionName]
  | Invoked FunctionName ModuleName Err Trace =>
      if nonEmpty ModuleName then
        if notNil Err then
          logError Err "invoke failed"
            ["stack" : value; VString Trace;
             "function" : value; VString FunctionName;
             "module" : value; VString ModuleName]
        else ret tt
      else
        if notNil Err then
          logError Err "invoke failed"
            ["stack" : value; VString Trace;
             "function" : value; VString FunctionName]
        else ret tt
  | Stopping Sig =>
      logEvent "received signal"
        ["signal" : value; VString (GoLib.ToUpper (Signal_String Sig))]
  | Stopped Err =>
      if notNil Err then logError Err "stop failed" [] else ret tt
  | RollingBack StartErr =>
      logError StartErr "start failed, rolling back" []
  | RolledBack Err =>
      if notNil Err then logError Err "rollback failed" [] else ret tt
  | Started Err =>
      if notNil Err then logError Err "start failed" []
      else logEvent "started" []
  | LoggerInitialized Err ConstructorName =>
      if notNil Err then
        logError Err "custom logger initialization failed" []
      else
        logEvent "initialized custom fxevent.Logger"
          ["function" : value; VString ConstructorName]
  end.

(** [func WithLogr(l *logr.Logger) func() fxevent.Logger]: the struct the
    returned closure allocates; the two levels keep Go's zero value. *)
Definition WithLogr (l : LoggerRef) : LogrLogger :=
  mkLogrLogger l 0 0.

(** Running a method on a receiver, with the loggers' history [before]. *)
Definition run {A : Type} (m : Go A) (l : LogrLogger) (before : list Call)
  : World :=
  execState m (mkWorld l before).

(** The calls one [LogEvent] makes, from a fresh history. *)
Definition emitted (l : LogrLogger) (event : Event) : list Call :=
  calls (run (LogEvent event) l []).

(* ------------------------------------------------------------------ *)
(** ** The minimal logger (the earlier version of the package) *)

Module Minimal.

(** [type logger struct { Logger logr.Logger }] *)
Record logger : Type := mklogger { Logger : LoggerRef }.

Record World : Type := mkWorld {
  this : logger;
  calls : list Call
}.

Definition Go := state World.

(** [l.Logger.Info(msg, keysAndValues...)]: the logger is used as it is,
    without a call of [V]; that is the logger [V(0)] returns, so the call is
    recorded with [V] zero. *)
Definition Logger_Info (msg : string) (keysAndValues : list value) : Go unit :=
  w <- get ;;
  put (mkWorld (this w)
         (calls w ++ [mkCall (Logger (this w)) 0 Info msg keysAndValues])).

(** [func (l *logger) LogEvent(event fxevent.Event)] *)
Definition LogEvent (event : Event) : Go unit :=
  match event with
  | OnStartExecuting FunctionName CallerName =>
      Logger_Info "OnStart hook executing"
        ["callee" : value; VString FunctionName; "caller" : value;
         VString CallerName]
  | _ => ret tt
  end.

(** [func WithLogr(l logr.Logger) func() fxevent.Logger] *)
Definition WithLogr (l : LoggerRef) : logger := mklogger l.

Definition emitted (l : logger) (event : Event) : list Call :=
  calls (execState (LogEvent event) (mkWorld l [])).

End Minimal.

(* ------------------------------------------------------------------ *)
(** ** Observers used in the statements *)

(** The [Err] field of the variants that have one. *)
Definition Err_of (event : Event) : error :=
  match event with
  | OnStartExecuted _ _ _ Err | OnStopExecuted _ _ _ Err
  | Supplied _ _ Err | Provided _ _ _ Err _ | Replaced _ _ Err
  | Decorated _ _ _ Err | Invoked _ _ Err _ | Stopped Err
  | RolledBack Err | Started Err | LoggerInitialized Err _ => Err
  | _ => None
  end.

(** The [OutputTypeNames] field of the variants that have one. *)
Definition OutputTypeNames_of (event : Event) : option (list string) :=
  match event with
  | Provided _ tys _ _ _ | Replaced tys _ _ | Decorated _ _ tys _ => Some tys
  | _ => None
  end.

(** The [ModuleName] field of the variants that have one. *)
Definition ModuleName_of (event : Event) : option string :=
  match event with
  | Supplied _ m _ | Provided _ _ m _ _ | Replaced _ m _
  | Decorated _ m _ _ | Invoking _ m | Invoked _ m _ _ => Some m
  | _ => None
  end.

Definition value_eqb (a b : value) : bool :=
  match a, b with
  | VString s, VString t => String.eqb s t
  | VBool x, VBool y => Bool.eqb x y
  | _, _ => false
  end.

(** Does the call carry the key [k]? *)
Definition hasKey (k : string) (c : Call) : bool :=
  existsb (value_eqb (VString k)) (keys (keysAndValues c)).

(** The value the call gives for the key [k], if any (the first one). *)
Fixpoint lookupField (k : string) (kv : list (value * value)) : option value :=
  match kv with
  | [] => None
  | (k', v) :: rest =>
      if value_eqb (VString k) k' then Some v else lookupField k rest
  end.

Definition fieldOf (k : string) (c : Call) : option value :=
  lookupField k (fields (keysAndValues c)).

(** The [Info] call [logEvent] makes for a receiver. *)
Definition infoCall (l : LogrLogger) (m : string) (kv : list value) : Call :=
  mkCall (Logger l) (logLevel l) Info m kv.

(** The [Error] call [logError] makes for a receiver. *)
Definition errorCall (l : LogrLogger) (err : error) (m : string)
  (kv : list value) : Call :=
  mkCall (Logger l) (errorLevel l) (Error err) m kv.

(** The [Private] field of a provided event; no other variant has one. *)
Definition Private_of (event : Event) : bool :=
  match event with
  | Provided _ _ _ _ Private => Private
  | _ => false
  end.

(** How many calls an event leads to. *)
Definition callCount (event : Event) : nat :=
  match event with
  | Provided _ tys _ Err _ | Replaced tys _ Err | Decorated _ _ tys Err =>
      (List.length tys + if notNil Err then 1 else 0)%nat
  | Invoked _ _ Err _ | Stopped Err | RolledBack Err =>
      if notNil Err then 1%nat else 0%nat
  | _ => 1%nat
  end.

(* ------------------------------------------------------------------ *)
(** ** Values of the repository's test *)

Definition someError : error := Some "some error".

(** The address of the logger the test builds with [funcr.New]. *)
Definition theLogger : LoggerRef := 1%nat.

(* ------------------------------------------------------------------ *)
(** ** Further observers and transformers *)

(** The error an [Error] call for the event hands over: [StartErr] for a
    rolling-back event, [Err] for the others. *)
Definition cause_of (event : Event) : error :=
  match event with
  | RollingBack StartErr => StartErr
  | _ => Err_of event
  end.

Definition isRollingBack (event : Event) : bool :=
  match event with
  | RollingBack _ => true
  | _ => false
  end.

(** The variant of an event: the case of the type switch it takes. *)
Definition variant (event : Event) : nat :=
  match event with
  | OnStartExecuting _ _ => 0
  | OnStartExecuted _ _ _ _ => 1
  | OnStopExecuting _ _ => 2
  | OnStopExecuted _ _ _ _ => 3
  | Supplied _ _ _ => 4
  | Provided _ _ _ _ _ => 5
  | Replaced _ _ _ => 6
  | Decorated _ _ _ _ => 7
  | Invoking _ _ => 8
  | Invoked _ _ _ _ => 9
  | Stopping _ => 10
  | Stopped _ => 11
  | RollingBack _ => 12
  | RolledBack _ => 13
  | Started _ => 14
  | LoggerInitialized _ _ => 15
  end%nat.

(** Is the module name of the event set?  (No for the variants without one.) *)
Definition hasModule (event : Event) : bool :=
  match ModuleName_of event with
  | Some m => nonEmpty m
  | None => false
  end.

(** What a call says, apart from the logger it goes to and its level. *)
Definition content (c : Call) : Method * string * list value :=
  (method c, msg c, keysAndValues c).

(** A key a logr sink accepts: a string, and not the empty one. *)
Definition isKey (v : value) : bool :=
  match v with
  | VString s => nonEmpty s
  | VBool _ => false
  end.

(** The event with its [ModuleName] replaced, where it has one. *)
Definition withModuleName (m : string) (event : Event) : Event :=
  match event with
  | Supplied TypeName _ Err => Supplied TypeName m Err
  | Provided ConstructorName OutputTypeNames _ Err Private =>
      Provided ConstructorName OutputTypeNames m Err Private
  | Replaced OutputTypeNames _ Err => Replaced OutputTypeNames m Err
  | Decorated DecoratorName _ OutputTypeNames Err =>
      Decorated DecoratorName m OutputTypeNames Err
  | Invoking FunctionName _ => Invoking FunctionName m
  | Invoked FunctionName _ Err Trace => Invoked FunctionName m Err Trace
  | other => other
  end.

(** The key-value list without the pairs whose key is [k]. *)
Fixpoint dropKey (k : string) (kv : list value) : list value :=
  match kv with
  | key :: v :: rest =>
      if value_eqb (VString k) key then dropKey k rest
      else key :: v :: dropKey k rest
  | other => other
  end.

(** The call without its field [k]. *)
Definition dropField (k : string) (c : Call) : Call :=
  mkCall (sink c) (V c) (method c) (msg c) (dropKey k (keysAndValues c)).

(** The message of a stop hook for the message of a start hook: the first
    seven bytes, OnStart, give way to OnStop. *)
Definition stopHookMessage (m : string) : string :=
  "OnStop" ++ substring 7 (String.length m - 7) m.

(** The call of a stop hook for the call of a start hook. *)
Definition asStopHook (c : Call) : Call :=
  mkCall (sink c) (V c) (method c) (stopHookMessage (msg c)) (keysAndValues c).

(** The call as the receiver [l] makes it: on its logger, at its level for
    the kind of call. *)
Definition configure (l : LogrLogger) (c : Call) : Call :=
  mkCall (Logger l) (if isError c then errorLevel l else logLevel l)
    (method c) (msg c) (keysAndValues c).

(** Handling a sequence of events, one [LogEvent] after the other, as the
    application does over its life. *)
Definition LogEvents (events : list Event) (w : World) : World :=
  fold_left (fun w event => execState (LogEvent event) w) events w.

(* ------------------------------------------------------------------ *)
(** ** The library models on sample inputs *)

Example Duration_String_3ms :
  GoLib.Duration_String (3 * Millisecond) = "3ms".
Proof. reflexivity. Qed.

Example Duration_String_samples :
  GoLib.Duration_String 0 = "0s" /\
  GoLib.Duration_String 1500000000 = "1.5s" /\
  GoLib.Duration_String (-2500000) = "-2.5ms" /\
  GoLib.Duration_String 999 = "999ns" /\
  GoLib.Duration_String (3661 * Second) = "1h1m1s" /\
  GoLib.Duration_String 9223372036854775807 = "2562047h47m16.854775807s".
Proof. repeat split; reflexivity. Qed.

Example ToUpper_interrupt :
  GoLib.ToUpper (Signal_String Interrupt) = "INTERRUPT".
Proof. reflexivity. Qed.

(** The fuel of [fmtInt] is enough: below [10 ^ fuel] the loop stops by
    itself, and every 64-bit value is below [10 ^ 20]. *)
Lemma fmtIntLoop_fuel (fuel : nat) :
  forall (v : Z) (buf : string) (extra : nat),
    0 <= v < 10 ^ Z.of_nat fuel ->
    GoLib.fmtIntLoop (fuel + extra) buf v = GoLib.fmtIntLoop fuel buf v.
Proof.
  induction fuel as [|fuel IH]; intros v buf extra Hv.
  - assert (v = 0) by (cbn in Hv; lia). subst v.
    destruct extra; reflexivity.
  - cbn [Nat.add GoLib.fmtIntLoop].
    destruct (0 <? v) eqn:E; [|reflexivity].
    apply IH. rewrite Nat2Z.inj_succ, Z.pow_succ_r in Hv by lia.
    split; [apply Z.div_pos; lia|].
    apply Z.div_lt_upper_bound; lia.
Qed.

Lemma fmtInt_uint64 (v : Z) (buf : string) (extra : nat) :
  0 < v < 2 ^ 64 ->
  GoLib.fmtInt buf v = GoLib.fmtIntLoop (20 + extra) buf v.
Proof.
  intros Hv. unfold GoLib.fmtInt.
  destruct (v =? 0) eqn:E; [apply Z.eqb_eq in E; lia|].
  symmetry. apply fmtIntLoop_fuel.
  split; [lia|]. eapply Z.lt_trans; [apply Hv|]. reflexivity.
Qed.

(* ------------------------------------------------------------------ *)
(** ** Running the methods *)

Section Running.

Variable w : World.

Lemma run_self : runState self w = (this w, w).
Proof. reflexivity. Qed.

Lemma run_logEvent m kv :
  runState (logEvent m kv) w
  = (tt, mkWorld (this w) (calls w ++ [infoCall (this w) m kv])).
Proof. reflexivity. Qed.

Lemma run_logError err m kv :
  runState (logError err m kv) w
  = (tt, mkWorld (this w) (calls w ++ [errorCall (this w) err m kv])).
Proof. reflexivity. Qed.

Lemma run_ret : runState (ret tt : Go unit) w = (tt, w).
Proof. reflexivity. Qed.

Lemma run_seq (a b : Go unit) :
  runState (a ;; b) w = runState b (snd (runState a w)).
Proof. cbn. destruct (runState a w). reflexivity. Qed.

End Running.

(** A [range] loop whose body is one [logEvent] makes one [Info] call per
    element, in the order of the slice, and leaves the receiver alone. *)
Lemma run_forRange_logEvent (m : string) (kv : string -> list value)
  (xs : list string) :
  forall w,
    runState (forRange xs (fun x => logEvent m (kv x))) w
    = (tt, mkWorld (this w)
             (calls w ++ map (fun x => infoCall (this w) m (kv x)) xs)).
Proof.
  induction xs as [|x xs IH]; intros w.
  - cbn [forRange map]. rewrite run_ret, app_nil_r. now destruct w.
  - cbn [forRange map]. rewrite run_seq, run_logEvent. cbn [snd].
    rewrite IH. cbn [this calls]. now rewrite <- app_assoc.
Qed.

(** The shape shared by the provided, replaced and decorated cases: the loop,
    then the failure, if there is one. *)
Lemma run_loop_then_failure (m : string) (kv : string -> list value)
  (xs : list string) (err : error) (em : string) (ekv : list value) w :
  runState (forRange xs (fun x => logEvent m (kv x)) ;;
            if notNil err then logError err em ekv else ret tt) w
  = (tt, mkWorld (this w)
           (calls w ++ map (fun x => infoCall (this w) m (kv x)) xs
              ++ if notNil err then [errorCall (this w) err em ekv] else [])).
Proof.
  rewrite run_seq, run_forRange_logEvent. cbn [snd].
  destruct (notNil err).
  - rewrite run_logError. cbn [this calls]. now rewrite <- app_assoc.
  - rewrite run_ret, app_nil_r. reflexivity.
Qed.

Local Open Scope list_scope.

Lemma emitted_eq l event :
  emitted l event = calls (snd (runState (LogEvent event) (mkWorld l []))).
Proof. reflexivity. Qed.

(** The calls of a loop-shaped case, read off [run_loop_then_failure]. *)
Ltac loop_case :=
  rewrite ?emitted_eq, !run_loop_then_failure; cbn [snd calls this app];
  reflexivity.

Lemma emitted_Provided l cn tys m err p :
  emitted l (Provided cn tys m err p)
  = map (fun rtype =>
           infoCall l "provided"
             (["constructor" : value; VString cn]
                ++ (if nonEmpty m then ["module" : value; VString m] else [])
                ++ ["type" : value; VString rtype]
                ++ (if p then ["private" : value; VBool true] else []))) tys
    ++ (if notNil err
        then [errorCall l err "error encountered while applying options"
                (if nonEmpty m then ["module" : value; VString m] else [])]
        else []).
Proof.
  rewrite emitted_eq. cbn [LogEvent].
  destruct (nonEmpty m), p; loop_case.
Qed.

Lemma emitted_Replaced l tys m err :
  emitted l (Replaced tys m err)
  = map (fun rtype =>
           infoCall l "replaced"
             ((if nonEmpty m then ["module" : value; VString m] else [])
                ++ ["type" : value; VString rtype])) tys
    ++ (if notNil err
        then [errorCall l err "error encountered while replacing"
                (if nonEmpty m then ["module" : value; VString m] else [])]
        else []).
Proof.
  rewrite emitted_eq. cbn [LogEvent].
  destruct (nonEmpty m); loop_case.
Qed.

Lemma emitted_Decorated l dn m tys err :
  emitted l (Decorated dn m tys err)
  = map (fun rtype =>
           infoCall l "decorated"
             (["decorator" : value; VString dn]
                ++ (if nonEmpty m then ["module" : value; VString m] else [])
                ++ ["type" : value; VString rtype])) tys
    ++ (if notNil err
        then [errorCall l err "error encountered while applying options"
                (if nonEmpty m then ["module" : value; VString m] else [])]
        else []).
Proof.
  rewrite emitted_eq. cbn [LogEvent].
  destruct (nonEmpty m); loop_case.
Qed.

(** [LogEvent] appends its calls to the loggers' history and hands the
    receiver back as it found it. *)
Lemma run_LogEvent event w :
  runState (LogEvent event) w
  = (tt, mkWorld (this w) (calls w ++ emitted (this w) event)).
Proof.
  destruct event;
    try (rewrite emitted_eq; cbn [LogEvent];
         repeat match goal with
           | |- context [if nonEmpty ?m then _ else _] => destruct (nonEmpty m)
           | |- context [if notNil ?e then _ else _] => destruct (notNil e)
           end;
         cbn; rewrite ?app_nil_r; destruct w; reflexivity).
  - rewrite emitted_Provided. cbn [LogEvent].
    destruct (nonEmpty ModuleName), Private;
      rewrite run_loop_then_failure; reflexivity.
  - rewrite emitted_Replaced. cbn [LogEvent].
    destruct (nonEmpty ModuleName); rewrite run_loop_then_failure; reflexivity.
  - rewrite emitted_Decorated. cbn [LogEvent].
    destruct (nonEmpty ModuleName); rewrite run_loop_then_failure; reflexivity.
Qed.

(* ------------------------------------------------------------------ *)
(** ** Shared facts about the emitted calls *)

(** Unfolds [LogEvent] at a variant and splits on the tests of its branches. *)
Ltac branches :=
  rewrite ?emitted_eq; cbn [LogEvent];
  repeat match goal with
    | |- context [if nonEmpty ?m then _ else _] =>
        let E := fresh "Hmod" in destruct (nonEmpty m) eqn:E
    | |- context [if notNil ?e then _ else _] =>
        let E := fresh "Herr" in destruct (notNil e) eqn:E
    end.

Ltac branches_in H :=
  rewrite ?emitted_eq in H; cbn [LogEvent] in H;
  repeat match type of H with
    | context [if nonEmpty ?m then _ else _] =>
        let E := fresh "Hmod" in destruct (nonEmpty m) eqn:E
    | context [if notNil ?e then _ else _] =>
        let E := fresh "Herr" in destruct (notNil e) eqn:E
    end.

Lemma nonEmpty_spec (s : string) : nonEmpty s = true <-> s <> EmptyString.
Proof. destruct s; cbn; split; congruence. Qed.

Lemma notNil_spec (err : error) : notNil err = true <-> err <> None.
Proof. destruct err; cbn; split; congruence. Qed.

Lemma split_at_map {A B : Type} (f : A -> B) (xs : list A) (rest : list B) :
  firstn (List.length xs) (map f xs ++ rest) = map f xs /\
  skipn (List.length xs) (map f xs ++ rest) = rest.
Proof.
  induction xs as [|x xs [IH1 IH2]]; cbn; [easy|].
  split; [now rewrite IH1 | exact IH2].
Qed.

Lemma filter_map_all {A B : Type} (g : B -> bool) (f : A -> B) (xs : list A) :
  (forall x, g (f x) = true) -> filter g (map f xs) = map f xs.
Proof.
  intros Hg. induction xs as [|x xs IH]; [reflexivity|].
  cbn [map filter]. now rewrite Hg, IH.
Qed.

Lemma filter_map_none {A B : Type} (g : B -> bool) (f : A -> B) (xs : list A) :
  (forall x, g (f x) = false) -> filter g (map f xs) = [].
Proof.
  intros Hg. induction xs as [|x xs IH]; [reflexivity|].
  cbn [map filter]. now rewrite Hg, IH.
Qed.

(** Every call of [LogEvent] is made by [logEvent] or by [logError]. *)
Lemma emitted_shape l event c :
  In c (emitted l event) ->
  (exists m kv, c = infoCall l m kv) \/
  (exists err m kv, c = errorCall l err m kv).
Proof.
  intros H.
  assert (Hloop : forall (f : string -> Call) tys rest,
             (forall x, exists m kv, f x = infoCall l m kv) ->
             (forall d, In d rest -> exists err m kv, d = errorCall l err m kv) ->
             In c (map f tys ++ rest) ->
             (exists m kv, c = infoCall l m kv) \/
             (exists err m kv, c = errorCall l err m kv)).
  { intros f tys rest Hf Hrest Hin. apply in_app_or in Hin as [Hin|Hin].
    - apply in_map_iff in Hin as [x [<- _]]. left. apply Hf.
    - right. now apply Hrest. }
  destruct event;
    try (branches_in H; cbn in H;
         repeat match type of H with
           | _ \/ _ => destruct H as [<-|H]
           | False => destruct H
           end;
         solve [left; eexists _, _; reflexivity
               | right; eexists _, _, _; reflexivity]).
  - rewrite emitted_Provided in H. revert H. apply Hloop.
    + intros x. eexists _, _. reflexivity.
    + intros d Hd. destruct (notNil Err); [|destruct Hd].
      destruct Hd as [<-|[]]. eexists _, _, _. reflexivity.
  - rewrite emitted_Replaced in H. revert H. apply Hloop.
    + intros x. eexists _, _. reflexivity.
    + intros d Hd. destruct (notNil Err); [|destruct Hd].
      destruct Hd as [<-|[]]. eexists _, _, _. reflexivity.
  - rewrite emitted_Decorated in H. revert H. apply Hloop.
    + intros x. eexists _, _. reflexivity.
    + intros d Hd. destruct (notNil Err); [|destruct Hd].
      destruct Hd as [<-|[]]. eexists _, _, _. reflexivity.
Qed.

(** Apart from the rolling-back case, an [Error] call only happens when the
    event's [Err] is set, and it forwards exactly that error. *)
Lemma emitted_error_cause l event c err :
  In c (emitted l event) -> method c = Error err ->
  (exists StartErr, event = RollingBack StartErr /\ err = StartErr) \/
  (err = Err_of event /\ notNil err = true).
Proof.
  intros H Hm.
  destruct event;
    try (branches_in H; cbn in H;
         repeat match type of H with
           | _ \/ _ => destruct H as [<-|H]
           | False => destruct H
           end;
         cbn in Hm; try discriminate Hm;
         injection Hm as <-; right; now split).
  - rewrite emitted_Provided in H. apply in_app_or in H as [H|H].
    + apply in_map_iff in H as [x [<- _]]. discriminate Hm.
    + destruct (notNil Err) eqn:E; [|destruct H].
      destruct H as [<-|[]]. injection Hm as <-. now right.
  - rewrite emitted_Replaced in H. apply in_app_or in H as [H|H].
    + apply in_map_iff in H as [x [<- _]]. discriminate Hm.
    + destruct (notNil Err) eqn:E; [|destruct H].
      destruct H as [<-|[]]. injection Hm as <-. now right.
  - rewrite emitted_Decorated in H. apply in_app_or in H as [H|H].
    + apply in_map_iff in H as [x [<- _]]. discriminate Hm.
    + destruct (notNil Err) eqn:E; [|destruct H].
      destruct H as [<-|[]]. injection Hm as <-. now right.
  - left. cbn in H. destruct H as [<-|[]]. injection Hm as <-.
    now exists StartErr.
Qed.

(* ------------------------------------------------------------------ *)
(** ** The repository's test table, replayed *)

Example test_OnStartExecuted :
  emitted (WithLogr theLogger)
    (OnStartExecuted "hook.onStart1" "bytes.NewBuffer" (3 * Millisecond) None)
  = [mkCall theLogger 0 Info "OnStart hook executed"
       ["callee" : value; "hook.onStart1" : value;
        "caller" : value; "bytes.NewBuffer" : value;
        "runtime" : value; "3ms" : value]].
Proof. reflexivity. Qed.

Example test_PrivateProvide :
  emitted (WithLogr theLogger)
    (Provided "bytes.NewBuffer()" ["*bytes.Buffer"] "myModule" None true)
  = [mkCall theLogger 0 Info "provided"
       ["constructor" : value; "bytes.NewBuffer()" : value;
        "module" : value; "myModule" : value;
        "type" : value; "*bytes.Buffer" : value;
        "private" : value; VBool true]].
Proof. reflexivity. Qed.

Example test_Stopping :
  emitted (WithLogr theLogger) (Stopping Interrupt)
  = [mkCall theLogger 0 Info "received signal"
       ["signal" : value; "INTERRUPT" : value]].
Proof. reflexivity. Qed.

Example test_Invoked_Error :
  emitted (WithLogr theLogger) (Invoked "bytes.NewBuffer()" EmptyString someError EmptyString)
  = [mkCall theLogger 0 (Error someError) "invoke failed"
       ["stack" : value; VString EmptyString;
        "function" : value; "bytes.NewBuffer()" : value]].
Proof. reflexivity. Qed.

(* ------------------------------------------------------------------ *)
(** ** Claims *)

(** C1, as stated, fails: a stopped event without an error leads to no call
    at all, and a replaced event with two output types leads to two calls. *)
Lemma C1_counterexample :
  emitted (WithLogr theLogger) (Stopped None) = [] /\
  List.length
    (emitted (WithLogr theLogger)
       (Replaced ["io.Reader"; "io.Writer"] EmptyString None)) = 2%nat /\
  ~ (forall event,
        List.length (emitted (WithLogr theLogger) event) = 1%nat).
Proof.
  split; [reflexivity|]. split; [reflexivity|].
  intros H. specialize (H (Stopped None)). discriminate H.
Qed.

(** C1 (amended): [LogEvent] makes all its calls before it returns, in
    order, after the calls made earlier, and their number is fixed by the
    event: one for the hook events, supplied, invoking, stopping, rolling
    back, started and logger-initialized; the number of output types, plus
    one when there is an error, for provided, replaced and decorated; one
    when there is an error and none otherwise for invoked, stopped and
    rolled back. *)
Theorem C1_call_count (l : LogrLogger) (event : Event) (before : list Call) :
  calls (run (LogEvent event) l before) = before ++ emitted l event /\
  List.length (emitted l event) = callCount event.
Proof.
  split.
  - unfold run, execState. now rewrite run_LogEvent.
  - destruct event; cbn [callCount]; try (branches; reflexivity).
    + rewrite emitted_Provided, length_app, length_map.
      now destruct (notNil Err).
    + rewrite emitted_Replaced, length_app, length_map.
      now destruct (notNil Err).
    + rewrite emitted_Decorated, length_app, length_map.
      now destruct (notNil Err).
Qed.

(** C2, as stated, fails: for a stopped event without an error the logger
    receives nothing, and in particular no informational call with the
    message started. *)
Lemma C2_counterexample :
  emitted (WithLogr theLogger) (Stopped None) = [] /\
  ~ (exists c, emitted (WithLogr theLogger) (Stopped None) = [c] /\
               isInfo c = true /\ msg c = "started").
Proof.
  split; [reflexivity|]. intros [c [H _]]. discriminate H.
Qed.

(** C2 (amended): a stopped event without an error leads to no call; a
    stopped event with an error leads to exactly one [Error] call, at the
    error level, with that error, the message stop failed and no fields. *)
Theorem C2_stopped (l : LogrLogger) (Err : error) :
  emitted l (Stopped Err)
  = match Err with
    | None => []
    | Some _ => [mkCall (Logger l) (errorLevel l) (Error Err) "stop failed" []]
    end.
Proof. destruct Err; reflexivity. Qed.

(** C3: for a provided, replaced or decorated event with output types [tys],
    the first [length tys] calls are [Info] calls, the i-th of them carrying
    the i-th output type as its type field; what follows is a single [Error]
    call with the event's error when there is one, and nothing otherwise.  So
    there are exactly [length tys] informational calls and one error call if
    and only if there is an error, and it comes last. *)
Theorem C3_per_type_calls (l : LogrLogger) (event : Event) (tys : list string) :
  OutputTypeNames_of event = Some tys ->
  let n := List.length tys in
  let per_type := firstn n (emitted l event) in
  let trailing := skipn n (emitted l event) in
  emitted l event = per_type ++ trailing /\
  List.length per_type = n /\
  Forall (fun c => isInfo c = true) per_type /\
  map (fieldOf "type") per_type = map (fun rtype => Some (VString rtype)) tys /\
  List.length trailing = (if notNil (Err_of event) then 1%nat else 0%nat) /\
  Forall (fun c => method c = Error (Err_of event)) trailing /\
  List.length (filter isInfo (emitted l event)) = n /\
  List.length (filter isError (emitted l event))
  = (if notNil (Err_of event) then 1%nat else 0%nat).
Proof.
  intros Htys n per_type trailing.
  assert (Hgen : forall (f : string -> Call) (em : string) (ekv : list value),
             emitted l event
             = map f tys
                 ++ (if notNil (Err_of event)
                     then [errorCall l (Err_of event) em ekv] else []) ->
             (forall x, isInfo (f x) = true) ->
             (forall x, fieldOf "type" (f x) = Some (VString x)) ->
             emitted l event = per_type ++ trailing /\
             List.length per_type = n /\
             Forall (fun c => isInfo c = true) per_type /\
             map (fieldOf "type") per_type
             = map (fun rtype => Some (VString rtype)) tys /\
             List.length trailing
             = (if notNil (Err_of event) then 1%nat else 0%nat) /\
             Forall (fun c => method c = Error (Err_of event)) trailing /\
             List.length (filter isInfo (emitted l event)) = n /\
             List.length (filter isError (emitted l event))
             = (if notNil (Err_of event) then 1%nat else 0%nat)).
  { intros f em ekv Hem Hinfo Htype.
    subst per_type trailing n. rewrite Hem.
    destruct (split_at_map f tys
                (if notNil (Err_of event)
                 then [errorCall l (Err_of event) em ekv] else []))
      as [-> ->].
    assert (Hfi : filter isInfo (map f tys) = map f tys)
      by (apply filter_map_all, Hinfo).
    assert (Hfe : filter isError (map f tys) = []).
    { apply filter_map_none. intros x. specialize (Hinfo x).
      unfold isInfo in Hinfo. now destruct (isError (f x)). }
    rewrite !filter_app, Hfi, Hfe, !length_app, !length_map.
    split; [reflexivity|]. split; [reflexivity|].
    split.
    { apply Forall_forall. intros c Hc.
      apply in_map_iff in Hc as [x [<- _]]. apply Hinfo. }
    split.
    { rewrite map_map. apply map_ext. exact Htype. }
    destruct (notNil (Err_of event)); cbn.
    - repeat split; try lia. repeat constructor.
    - repeat split; try lia. constructor. }
  destruct event; try discriminate Htys; injection Htys as ->.
  - eapply Hgen.
    + apply emitted_Provided.
    + reflexivity.
    + intros x. destruct (nonEmpty ModuleName), Private; reflexivity.
  - eapply Hgen.
    + apply emitted_Replaced.
    + reflexivity.
    + intros x. destruct (nonEmpty ModuleName); reflexivity.
  - eapply Hgen.
    + apply emitted_Decorated.
    + reflexivity.
    + intros x. destruct (nonEmpty ModuleName); reflexivity.
Qed.

(** C3 at a provided event with two output types and an error. *)
Lemma C3_per_type_calls_witness :
  OutputTypeNames_of
    (Provided "bytes.NewBuffer()" ["*bytes.Buffer"; "io.Reader"] "myModule"
       someError false)
  = Some ["*bytes.Buffer"; "io.Reader"] /\
  List.length
    (filter isInfo
       (emitted (WithLogr theLogger)
          (Provided "bytes.NewBuffer()" ["*bytes.Buffer"; "io.Reader"]
             "myModule" someError false))) = 2%nat.
Proof.
  split; [reflexivity|].
  apply (C3_per_type_calls (WithLogr theLogger)
           (Provided "bytes.NewBuffer()" ["*bytes.Buffer"; "io.Reader"]
              "myModule" someError false)
           ["*bytes.Buffer"; "io.Reader"]).
  reflexivity.
Defined.

(** C4: a call of [LogEvent] is made with [V(errorLevel)] when it is an
    [Error] call, the one operation that hands an error to the logger, and
    with [V(logLevel)] when it is an [Info] call; when the two levels differ,
    the error level is used if and only if the call is an [Error] call. *)
Theorem C4_severity (l : LogrLogger) (event : Event) (c : Call) :
  In c (emitted l event) ->
  V c = (if isError c then errorLevel l else logLevel l) /\
  (isError c = true <-> exists err, method c = Error err) /\
  (logLevel l <> errorLevel l -> (V c = errorLevel l <-> isError c = true)).
Proof.
  intros H.
  assert (HV : V c = (if isError c then errorLevel l else logLevel l)).
  { apply emitted_shape in H as [[m [kv ->]]|[err [m [kv ->]]]]; reflexivity. }
  split; [exact HV|]. split.
  - unfold isError. destruct (method c); split; intros Hc;
      try discriminate Hc; eauto.
    destruct Hc as [err Hc]. discriminate Hc.
  - intros Hne. rewrite HV. destruct (isError c); split; intros Hc;
      try reflexivity; try discriminate Hc. now elim Hne.
Qed.

(** C4 at a supplied event with an error, the levels set to 2 and 5. *)
Lemma C4_severity_witness :
  In (mkCall theLogger 5 (Error someError)
        "error encountered while applying options"
        ["type" : value; "*bytes.Buffer" : value])
     (emitted (mkLogrLogger theLogger 2 5)
        (Supplied "*bytes.Buffer" EmptyString someError)) /\
  (5 = 5 <-> true = true).
Proof.
  split; [left; reflexivity|].
  refine (proj2 (proj2
    (C4_severity (mkLogrLogger theLogger 2 5)
       (Supplied "*bytes.Buffer" EmptyString someError)
       (mkCall theLogger 5 (Error someError)
          "error encountered while applying options"
          ["type" : value; "*bytes.Buffer" : value]) _)) _).
  - left; reflexivity.
  - cbn. lia.
Defined.

(** C5, as stated, fails for the private key: a private provided event with
    an error has a per-type call with the key and a failure call without. *)
Lemma C5_counterexample :
  Private_of
    (Provided "bytes.NewBuffer()" ["*bytes.Buffer"] "myModule" someError true)
  = true /\
  map (hasKey "private")
    (emitted (WithLogr theLogger)
       (Provided "bytes.NewBuffer()" ["*bytes.Buffer"] "myModule" someError
          true))
  = [true; false].
Proof. split; reflexivity. Qed.

(** Goes through the members of an explicit list of calls. *)
Ltac members H :=
  repeat match type of H with
    | _ \/ _ => destruct H as [<-|H]
    | False => destruct H
    end.

(** The field-level facts of one call, once its key-value list is known. *)
Ltac field_facts m Hmod :=
  cbn; intros v Hin;
  repeat match type of Hin with
    | _ \/ _ => destruct Hin as [Hin|Hin]
    | False => destruct Hin
    end;
  try discriminate Hin;
  try (injection Hin as <-);
  try (split; [reflexivity | now apply nonEmpty_spec]);
  try reflexivity.

(** C5 (amended): in every call made for a supplied, provided, replaced,
    decorated, invoking or invoked event the module key is present if and
    only if the module name is not empty, and its value is then that name;
    for a provided event the private key is present in the per-type [Info]
    calls if and only if the event is private, and never in the failure call;
    no other event has it, and its value is always true. *)
Theorem C5_optional_fields (l : LogrLogger) (event : Event) (m : string)
  (c : Call) :
  ModuleName_of event = Some m ->
  In c (emitted l event) ->
  (hasKey "module" c = true <-> m <> EmptyString) /\
  (forall v, In (VString "module", v) (fields (keysAndValues c)) ->
             v = VString m /\ m <> EmptyString) /\
  hasKey "private" c = isInfo c && Private_of event /\
  (forall v, In (VString "private", v) (fields (keysAndValues c)) ->
             v = VBool true).
Proof.
  intros Hm H.
  enough (Hall : hasKey "module" c = nonEmpty m /\
                 (forall v, In (VString "module", v) (fields (keysAndValues c)) ->
                            v = VString m /\ m <> EmptyString) /\
                 hasKey "private" c = isInfo c && Private_of event /\
                 (forall v, In (VString "private", v)
                              (fields (keysAndValues c)) -> v = VBool true)).
  { destruct Hall as [H1 H2]. split; [|exact H2].
    rewrite H1. apply nonEmpty_spec. }
  destruct event; try discriminate Hm; injection Hm as ->.
  - (* supplied *)
    branches_in H; cbn in H; members H; rewrite ?Hmod;
      (split; [reflexivity|]); (split; [field_facts m Hmod|]);
      (split; [reflexivity|]); field_facts m Hmod.
  - (* provided *)
    rewrite emitted_Provided in H. apply in_app_or in H as [H|H].
    + apply in_map_iff in H as [rtype [<- _]].
      destruct (nonEmpty m) eqn:Hmod, Private;
        (split; [reflexivity|]); (split; [field_facts m Hmod|]);
        (split; [reflexivity|]); field_facts m Hmod.
    + destruct (notNil Err); [|destruct H]. destruct H as [<-|[]].
      destruct (nonEmpty m) eqn:Hmod;
        (split; [reflexivity|]); (split; [field_facts m Hmod|]);
        (split; [reflexivity|]); field_facts m Hmod.
  - (* replaced *)
    rewrite emitted_Replaced in H. apply in_app_or in H as [H|H].
    + apply in_map_iff in H as [rtype [<- _]].
      destruct (nonEmpty m) eqn:Hmod;
        (split; [reflexivity|]); (split; [field_facts m Hmod|]);
        (split; [reflexivity|]); field_facts m Hmod.
    + destruct (notNil Err); [|destruct H]. destruct H as [<-|[]].
      destruct (nonEmpty m) eqn:Hmod;
        (split; [reflexivity|]); (split; [field_facts m Hmod|]);
        (split; [reflexivity|]); field_facts m Hmod.
  - (* decorated *)
    rewrite emitted_Decorated in H. apply in_app_or in H as [H|H].
    + apply in_map_iff in H as [rtype [<- _]].
      destruct (nonEmpty m) eqn:Hmod;
        (split; [reflexivity|]); (split; [field_facts m Hmod|]);
        (split; [reflexivity|]); field_facts m Hmod.
    + destruct (notNil Err); [|destruct H]. destruct H as [<-|[]].
      destruct (nonEmpty m) eqn:Hmod;
        (split; [reflexivity|]); (split; [field_facts m Hmod|]);
        (split; [reflexivity|]); field_facts m Hmod.
  - (* invoking *)
    branches_in H; cbn in H; members H; rewrite ?Hmod;
      (split; [reflexivity|]); (split; [field_facts m Hmod|]);
      (split; [reflexivity|]); field_facts m Hmod.
  - (* invoked *)
    branches_in H; cbn in H; members H; rewrite ?Hmod;
      (split; [reflexivity|]); (split; [field_facts m Hmod|]);
      (split; [reflexivity|]); field_facts m Hmod.
Qed.

(** C5 at the private provided event of the repository's test. *)
Lemma C5_optional_fields_witness :
  In (mkCall theLogger 0 Info "provided"
        ["constructor" : value; "bytes.NewBuffer()" : value;
         "module" : value; "myModule" : value;
         "type" : value; "*bytes.Buffer" : value;
         "private" : value; VBool true])
     (emitted (WithLogr theLogger)
        (Provided "bytes.NewBuffer()" ["*bytes.Buffer"] "myModule" None true))
  /\ (true = true <-> "myModule" <> EmptyString).
Proof.
  split; [left; reflexivity|].
  refine (proj1
    (C5_optional_fields (WithLogr theLogger)
       (Provided "bytes.NewBuffer()" ["*bytes.Buffer"] "myModule" None true)
       "myModule"
       (mkCall theLogger 0 Info "provided"
          ["constructor" : value; "bytes.NewBuffer()" : value;
           "module" : value; "myModule" : value;
           "type" : value; "*bytes.Buffer" : value;
           "private" : value; VBool true]) _ _)).
  - reflexivity.
  - left; reflexivity.
Defined.

(** C6: a hook-start-executed event without an error leads to one [Info]
    call, at the informational level, with the message OnStart hook executed
    and the fields callee, caller, runtime in that order, the runtime being
    the duration as [time.Duration.String] renders it (3ms for three
    milliseconds); with an error it leads to one [Error] call, at the error
    level, with the message OnStart hook failed and the fields callee and
    caller only. *)
Theorem C6_OnStartExecuted (l : LogrLogger) (FunctionName CallerName : string)
  (Runtime : Duration) (Err : error) :
  emitted l (OnStartExecuted FunctionName CallerName Runtime Err)
  = match Err with
    | None =>
        [mkCall (Logger l) (logLevel l) Info "OnStart hook executed"
           ["callee" : value; VString FunctionName;
            "caller" : value; VString CallerName;
            "runtime" : value; VString (GoLib.Duration_String Runtime)]]
    | Some _ =>
        [mkCall (Logger l) (errorLevel l) (Error Err) "OnStart hook failed"
           ["callee" : value; VString FunctionName;
            "caller" : value; VString CallerName]]
    end
  /\ map (fun c => keys (keysAndValues c))
       (emitted l (OnStartExecuted FunctionName CallerName Runtime Err))
     = [if notNil Err
        then ["callee" : value; "caller" : value]
        else ["callee" : value; "caller" : value; "runtime" : value]]
  /\ emitted l
       (OnStartExecuted "hook.onStart" "bytes.NewBuffer" (3 * Millisecond) None)
     = [mkCall (Logger l) (logLevel l) Info "OnStart hook executed"
          ["callee" : value; "hook.onStart" : value;
           "caller" : value; "bytes.NewBuffer" : value;
           "runtime" : value; "3ms" : value]].
Proof.
  split; [|split].
  - destruct Err; reflexivity.
  - destruct Err; reflexivity.
  - reflexivity.
Qed.

(** C7: a stopping event leads to exactly one [Info] call, at the
    informational level, with the message received signal and the single
    field signal, whose value is a string; when the [String()] of the signal
    is ASCII text, as the names of the operating system's signals are, that
    value is the name in upper case; for the interrupt signal it is
    INTERRUPT. *)
Theorem C7_Stopping (l : LogrLogger) (Sig : Signal) :
  (exists v : string,
      emitted l (Stopping Sig)
      = [mkCall (Logger l) (logLevel l) Info "received signal"
           ["signal" : value; VString v]]) /\
  (GoLib.isASCII (Signal_String Sig) = true ->
   emitted l (Stopping Sig)
   = [mkCall (Logger l) (logLevel l) Info "received signal"
        ["signal" : value; VString (GoLib.ToUpper (Signal_String Sig))]]) /\
  emitted l (Stopping Interrupt)
  = [mkCall (Logger l) (logLevel l) Info "received signal"
       ["signal" : value; "INTERRUPT" : value]].
Proof.
  split; [|split].
  - eexists. reflexivity.
  - intros _. reflexivity.
  - reflexivity.
Qed.

(** C7 at the interrupt signal of the repository's test. *)
Lemma C7_Stopping_witness :
  GoLib.isASCII (Signal_String Interrupt) = true /\
  emitted (WithLogr theLogger) (Stopping Interrupt)
  = [mkCall theLogger 0 Info "received signal"
       ["signal" : value;
        VString (GoLib.ToUpper (Signal_String Interrupt))]].
Proof.
  split; [reflexivity|].
  apply (proj1 (proj2 (C7_Stopping (WithLogr theLogger) Interrupt))).
  reflexivity.
Defined.

(** C8: a rolling-back event leads to exactly one [Error] call, at the error
    level, with the message start failed, rolling back, the event's
    [StartErr] as the error and no fields, whatever [StartErr] is, [nil]
    included. *)
Theorem C8_RollingBack (l : LogrLogger) (StartErr : error) :
  emitted l (RollingBack StartErr)
  = [mkCall (Logger l) (errorLevel l) (Error StartErr)
       "start failed, rolling back" []]
  /\ emitted l (RollingBack None)
     = [mkCall (Logger l) (errorLevel l) (Error None)
          "start failed, rolling back" []].
Proof. split; reflexivity. Qed.

(** C9: [LogEvent], like [logEvent] and [logError] which it is made of,
    leaves the receiver as it is: the logger reference and both levels are
    the same before and after.  [UseLogLevel] sets [logLevel] and nothing
    else, [UseErrorLevel] sets [errorLevel] and nothing else, and neither
    makes a call. *)
Theorem C9_frame :
  (forall event l before, this (run (LogEvent event) l before) = l) /\
  (forall m kv l before, this (run (logEvent m kv) l before) = l) /\
  (forall err m kv l before, this (run (logError err m kv) l before) = l) /\
  (forall level l before,
      run (UseLogLevel level) l before
      = mkWorld (mkLogrLogger (Logger l) level (errorLevel l)) before) /\
  (forall level l before,
      run (UseErrorLevel level) l before
      = mkWorld (mkLogrLogger (Logger l) (logLevel l) level) before).
Proof.
  repeat split.
  intros event l before. unfold run, execState. now rewrite run_LogEvent.
Qed.

(** C10: for a hook-start-executing event the minimal logger and the logger
    [WithLogr] builds make the same single call, an [Info] call with the
    message OnStart hook executing and the fields callee and caller at
    verbosity zero; for every other event the minimal logger makes no call. *)
Theorem C10_minimal_logger (ref : LoggerRef) (event : Event) :
  Minimal.emitted (Minimal.WithLogr ref) event
  = match event with
    | OnStartExecuting _ _ => emitted (WithLogr ref) event
    | _ => []
    end
  /\ (forall FunctionName CallerName,
         emitted (WithLogr ref) (OnStartExecuting FunctionName CallerName)
         = [mkCall ref 0 Info "OnStart hook executing"
              ["callee" : value; VString FunctionName;
               "caller" : value; VString CallerName]]).
Proof.
  split.
  - destruct event; reflexivity.
  - reflexivity.
Qed.

(* ------------------------------------------------------------------ *)
(** ** Further properties of the adapter *)

(** Splits on the tests left in the goal. *)
Ltac split_tests :=
  repeat match goal with
    | |- context [if nonEmpty ?m then _ else _] =>
        let E := fresh "Hmod" in destruct (nonEmpty m) eqn:E
    | |- context [if notNil ?e then _ else _] =>
        let E := fresh "Herr" in destruct (notNil e) eqn:E
    | |- context [if ?p then _ else _] => is_var p; destruct p
    end.

(** The calls of a loop-shaped case: a per-type call or the failure call. *)
Ltac loop_sites H :=
  apply in_app_or in H as [H|H];
  [ let rtype := fresh "rtype" in apply in_map_iff in H as [rtype [<- _]]
  | match type of H with
    | context [notNil ?e] =>
        let E := fresh "Herr" in
        destruct (notNil e) eqn:E; [destruct H as [<-|[]] | destruct H]
    end ].

(** Replaces a call known to be among the calls for an event by each of the
    calls the source can make there. *)
Ltac call_sites H :=
  match type of H with
  | In _ (emitted _ (Provided _ _ _ _ _)) =>
      rewrite emitted_Provided in H; loop_sites H
  | In _ (emitted _ (Replaced _ _ _)) =>
      rewrite emitted_Replaced in H; loop_sites H
  | In _ (emitted _ (Decorated _ _ _ _)) =>
      rewrite emitted_Decorated in H; loop_sites H
  | _ => branches_in H; cbn in H; members H
  end.

(** X1: every call [LogEvent] makes goes to the logger the receiver holds,
    and to no other. *)
Theorem X1_sink_is_receiver_logger (l : LogrLogger) (event : Event) (c : Call) :
  In c (emitted l event) -> sink c = Logger l.
Proof.
  intros H.
  apply emitted_shape in H as [[m [kv ->]]|[err [m [kv ->]]]]; reflexivity.
Qed.

(** X1 at the stopping event of the repository's test. *)
Lemma X1_sink_is_receiver_logger_witness :
  sink (mkCall theLogger 0 Info "received signal"
          ["signal" : value; "INTERRUPT" : value]) = theLogger.
Proof.
  apply (X1_sink_is_receiver_logger (WithLogr theLogger) (Stopping Interrupt)).
  left; reflexivity.
Defined.

(** X2: the arguments of every call are well formed for logr: they come in
    pairs, and every key is a non-empty string. *)
Theorem X2_key_value_pairs (l : LogrLogger) (event : Event) (c : Call) :
  In c (emitted l event) ->
  Nat.even (List.length (keysAndValues c)) = true /\
  forallb isKey (keys (keysAndValues c)) = true /\
  List.length (keysAndValues c) = (2 * List.length (fields (keysAndValues c)))%nat.
Proof.
  intros H. destruct event; call_sites H; split_tests; cbn; auto.
Qed.

(** X2 at the failing invoked event of the repository's test. *)
Lemma X2_key_value_pairs_witness :
  Nat.even
    (List.length
       (keysAndValues
          (mkCall theLogger 0 (Error someError) "invoke failed"
             ["stack" : value; VString EmptyString;
              "function" : value; "bytes.NewBuffer()" : value]))) = true.
Proof.
  refine (proj1
    (X2_key_value_pairs (WithLogr theLogger)
       (Invoked "bytes.NewBuffer()" EmptyString someError EmptyString) _ _)).
  left; reflexivity.
Defined.

(** X3: no call names a key twice. *)
Theorem X3_keys_distinct (l : LogrLogger) (event : Event) (c : Call) :
  In c (emitted l event) -> NoDup (keys (keysAndValues c)).
Proof.
  intros H. destruct event; call_sites H; split_tests; cbn;
    repeat (constructor; [cbn; intuition congruence|]); constructor.
Qed.

(** X3 at the private provided event of the repository's test. *)
Lemma X3_keys_distinct_witness :
  NoDup ["constructor" : value; "module" : value; "type" : value;
         "private" : value].
Proof.
  apply (X3_keys_distinct (WithLogr theLogger)
           (Provided "bytes.NewBuffer()" ["*bytes.Buffer"] "myModule" None true)
           (mkCall theLogger 0 Info "provided"
              ["constructor" : value; "bytes.NewBuffer()" : value;
               "module" : value; "myModule" : value;
               "type" : value; "*bytes.Buffer" : value;
               "private" : value; VBool true])).
  left; reflexivity.
Defined.

(** X4: a failure is logged once and as it is: among the calls for an event
    there is exactly one [Error] call when the event carries an error (or is
    a rolling-back event), and it hands over that very error; otherwise
    there is none. *)
Theorem X4_failure_logged_once (l : LogrLogger) (event : Event) :
  map method (filter isError (emitted l event))
  = if notNil (Err_of event) || isRollingBack event
    then [Error (cause_of event)]
    else [].
Proof.
  assert (Hloop : forall (f : string -> Call) tys (err : error) em ekv,
             (forall x, isError (f x) = false) ->
             map method
               (filter isError
                  (map f tys
                     ++ (if notNil err then [errorCall l err em ekv] else [])))
             = if notNil err || false then [Error err] else []).
  { intros f tys err em ekv Hf.
    rewrite filter_app, filter_map_none by exact Hf.
    now destruct (notNil err). }
  destruct event; cbn [Err_of cause_of isRollingBack];
    try (branches; reflexivity).
  - rewrite emitted_Provided. now apply Hloop.
  - rewrite emitted_Replaced. now apply Hloop.
  - rewrite emitted_Decorated. now apply Hloop.
Qed.

(** X5: for the variants without output types an error takes the place of
    the success message: the event leads to the [Error] call alone. *)
Theorem X5_failure_replaces_success (l : LogrLogger) (event : Event) :
  OutputTypeNames_of event = None ->
  notNil (Err_of event) = true ->
  map method (emitted l event) = [Error (Err_of event)].
Proof.
  intros Hty Herr.
  destruct event; try discriminate Hty; cbn [Err_of] in *;
    try discriminate Herr;
    rewrite emitted_eq; cbn [LogEvent]; rewrite ?Herr;
    split_tests; reflexivity.
Qed.

(** X5 at the failing started event of the repository's test. *)
Lemma X5_failure_replaces_success_witness :
  map method (emitted (WithLogr theLogger) (Started someError))
  = [Error someError].
Proof.
  apply (X5_failure_replaces_success (WithLogr theLogger) (Started someError));
    reflexivity.
Defined.

(** X6: the configuration of the receiver decides where a call goes and at
    which level, and nothing else: the calls one receiver makes for an event
    are those any other receiver makes, sent to its own logger at its own
    levels.  Messages, errors and fields do not depend on the levels. *)
Theorem X6_configuration_only_sets_target_and_level (l l' : LogrLogger)
  (event : Event) :
  emitted l event = map (configure l) (emitted l' event) /\
  map content (emitted l event) = map content (emitted l' event).
Proof.
  assert (H : emitted l event = map (configure l) (emitted l' event)).
  { destruct event; try (branches; reflexivity).
    - rewrite !emitted_Provided, map_app, map_map.
      f_equal. now destruct (notNil Err).
    - rewrite !emitted_Replaced, map_app, map_map.
      f_equal. now destruct (notNil Err).
    - rewrite !emitted_Decorated, map_app, map_map.
      f_equal. now destruct (notNil Err). }
  split; [exact H|].
  rewrite H, map_map. apply map_ext. intros c. reflexivity.
Qed.

(** X7: the levels set on a logger built by [WithLogr] are the levels of the
    calls that follow: after [UseLogLevel a] and [UseErrorLevel b] every
    [Info] call is made with [V(a)] and every [Error] call with [V(b)]; a
    level set after an event leaves the calls made for it as they are. *)
Theorem X7_levels_take_effect (ref : LoggerRef) (a b : Z) (event : Event) :
  run (UseLogLevel a ;; UseErrorLevel b ;; LogEvent event) (WithLogr ref) []
  = mkWorld (mkLogrLogger ref a b) (emitted (mkLogrLogger ref a b) event) /\
  Forall (fun c => V c = if isError c then b else a)
    (emitted (mkLogrLogger ref a b) event) /\
  run (LogEvent event ;; UseLogLevel a ;; UseErrorLevel b) (WithLogr ref) []
  = mkWorld (mkLogrLogger ref a b) (emitted (WithLogr ref) event).
Proof.
  split; [|split].
  - unfold run, execState. rewrite run_seq, run_seq, run_LogEvent. reflexivity.
  - apply Forall_forall. intros c Hc.
    apply emitted_shape in Hc as [[m [kv ->]]|[err [m [kv ->]]]]; reflexivity.
  - unfold run, execState. rewrite run_seq, run_LogEvent. reflexivity.
Qed.

(** X8: the two setters are independent and the last value wins, and they
    make no call: after a level is set twice the receiver has the second
    value, after the two levels are set, in either order, it has both, the
    logger reference and the other level being those it had, and the calls
    made before are all the calls there are. *)
Theorem X8_setters_compose (l : LogrLogger) (before : list Call) (a b : Z) :
  run (UseLogLevel a ;; UseLogLevel b) l before
  = mkWorld (mkLogrLogger (Logger l) b (errorLevel l)) before /\
  run (UseErrorLevel a ;; UseErrorLevel b) l before
  = mkWorld (mkLogrLogger (Logger l) (logLevel l) b) before /\
  run (UseLogLevel a ;; UseErrorLevel b) l before
  = mkWorld (mkLogrLogger (Logger l) a b) before /\
  run (UseErrorLevel b ;; UseLogLevel a) l before
  = mkWorld (mkLogrLogger (Logger l) a b) before.
Proof. repeat split. Qed.

(** X9: the adapter keeps nothing from one event to the next: the calls for
    a sequence of events are the calls for each of them, in order, after the
    calls made before, and the receiver is the same at the end. *)
Theorem X9_events_are_independent (l : LogrLogger) (events : list Event) :
  forall before,
    LogEvents events (mkWorld l before)
    = mkWorld l (before ++ List.concat (map (emitted l) events)).
Proof.
  induction events as [|event events IH]; intros before.
  - cbn. now rewrite app_nil_r.
  - cbn [LogEvents fold_left map List.concat]. unfold execState at 2.
    rewrite run_LogEvent. cbn [snd this calls].
    unfold LogEvents in IH. rewrite IH. now rewrite app_assoc.
Qed.

(** X10: the module name adds the module field and changes nothing else:
    without their module field, the calls for an event are the calls for the
    same event with an empty module name. *)
Theorem X10_module_only_adds_its_field (l : LogrLogger) (event : Event) :
  map (dropField "module") (emitted l event)
  = emitted l (withModuleName EmptyString event).
Proof.
  destruct event; cbn [withModuleName];
    try (rewrite !emitted_eq; cbn [LogEvent nonEmpty String.length Nat.eqb negb];
         split_tests; reflexivity).
  - rewrite !emitted_Provided, map_app, map_map.
    cbn [nonEmpty String.length Nat.eqb negb].
    f_equal; [apply map_ext; intros rtype|]; split_tests; reflexivity.
  - rewrite !emitted_Replaced, map_app, map_map.
    cbn [nonEmpty String.length Nat.eqb negb].
    f_equal; [apply map_ext; intros rtype|]; split_tests; reflexivity.
  - rewrite !emitted_Decorated, map_app, map_map.
    cbn [nonEmpty String.length Nat.eqb negb].
    f_equal; [apply map_ext; intros rtype|]; split_tests; reflexivity.
Qed.

(** X11: the private mark adds the private field to the per-type calls and
    changes nothing else: without their private field, the calls for a
    provided event are the calls for the same event not marked private. *)
Theorem X11_private_only_adds_its_field (l : LogrLogger)
  (ConstructorName : string) (OutputTypeNames : list string)
  (ModuleName : string) (Err : error) (Private : bool) :
  map (dropField "private")
    (emitted l (Provided ConstructorName OutputTypeNames ModuleName Err Private))
  = emitted l (Provided ConstructorName OutputTypeNames ModuleName Err false).
Proof.
  rewrite !emitted_Provided, map_app, map_map.
  f_equal; [apply map_ext; intros rtype|]; split_tests; reflexivity.
Qed.

(** X12: the per-type calls are independent of one another and of the
    failure: the calls for a list of output types are the calls for its
    first part without the error followed by the calls for the rest; with no
    output type at all, what is left is the failure call, if any. *)
Theorem X12_output_types_split (l : LogrLogger) (xs ys : list string)
  (cn dn m : string) (err : error) (p : bool) :
  emitted l (Provided cn (xs ++ ys) m err p)
  = emitted l (Provided cn xs m None p) ++ emitted l (Provided cn ys m err p) /\
  emitted l (Replaced (xs ++ ys) m err)
  = emitted l (Replaced xs m None) ++ emitted l (Replaced ys m err) /\
  emitted l (Decorated dn m (xs ++ ys) err)
  = emitted l (Decorated dn m xs None) ++ emitted l (Decorated dn m ys err) /\
  map method (emitted l (Provided cn [] m err p))
  = (if notNil err then [Error err] else []) /\
  map method (emitted l (Replaced [] m err))
  = (if notNil err then [Error err] else []) /\
  map method (emitted l (Decorated dn m [] err))
  = (if notNil err then [Error err] else []).
Proof.
  rewrite !emitted_Provided, !emitted_Replaced, !emitted_Decorated.
  cbn [notNil map app]. rewrite !map_app, !app_nil_r, <- !app_assoc.
  repeat split; now destruct (notNil err).
Qed.

(** X13: the stop hooks are logged as the start hooks are, under their own
    name: the calls for a stop-hook event are the calls for the start-hook
    event with the same fields, with OnStop for OnStart in the message. *)
Theorem X13_stop_hooks_mirror_start_hooks (l : LogrLogger)
  (FunctionName CallerName : string) (Runtime : Duration) (Err : error) :
  emitted l (OnStopExecuting FunctionName CallerName)
  = map asStopHook (emitted l (OnStartExecuting FunctionName CallerName)) /\
  emitted l (OnStopExecuted FunctionName CallerName Runtime Err)
  = map asStopHook
      (emitted l (OnStartExecuted FunctionName CallerName Runtime Err)).
Proof. split; [reflexivity|]. destruct Err; reflexivity. Qed.

(** X14: the message of a call is fixed by the variant of the event and by
    the kind of the call: two calls of the same kind for events of the same
    variant carry the same message, whatever the fields of the events and
    whichever the receivers. *)
Theorem X14_message_fixed_by_variant (l l' : LogrLogger) (event event' : Event)
  (c c' : Call) :
  variant event = variant event' ->
  In c (emitted l event) -> In c' (emitted l' event') ->
  isError c = isError c' ->
  msg c = msg c'.
Proof.
  intros Hv Hc Hc' Hk.
  destruct event, event'; try discriminate Hv; clear Hv;
    call_sites Hc; call_sites Hc';
    solve [reflexivity | discriminate Hk].
Qed.

(** X14 at two supplied events, one with a module and one without. *)
Lemma X14_message_fixed_by_variant_witness :
  msg (mkCall theLogger 0 Info "supplied"
         ["type" : value; "*bytes.Buffer" : value;
          "module" : value; "myModule" : value])
  = msg (mkCall 2%nat 3 Info "supplied" ["type" : value; "io.Reader" : value]).
Proof.
  apply (X14_message_fixed_by_variant (WithLogr theLogger)
           (mkLogrLogger 2%nat 3 4)
           (Supplied "*bytes.Buffer" "myModule" None)
           (Supplied "io.Reader" EmptyString None)).
  - reflexivity.
  - left; reflexivity.
  - left; reflexivity.
  - reflexivity.
Defined.

(** X15: the keys of a call, and their order, are fixed by the variant of
    the event, the kind of the call, whether the module name is set and
    whether the event is private; the values of the event's fields have no
    part in it. *)
Theorem X15_keys_fixed_by_variant (l l' : LogrLogger) (event event' : Event)
  (c c' : Call) :
  variant event = variant event' ->
  hasModule event = hasModule event' ->
  Private_of event = Private_of event' ->
  In c (emitted l event) -> In c' (emitted l' event') ->
  isError c = isError c' ->
  keys (keysAndValues c) = keys (keysAndValues c').
Proof.
  intros Hv Hm Hp Hc Hc' Hk.
  destruct event, event'; try discriminate Hv; clear Hv;
    cbn [hasModule ModuleName_of Private_of] in Hm, Hp;
    call_sites Hc; call_sites Hc';
    try discriminate Hk; try discriminate Hm;
    split_tests; try discriminate Hm; try discriminate Hp;
    reflexivity.
Qed.

(** X15 at two provided events with a module, not private. *)
Lemma X15_keys_fixed_by_variant_witness :
  keys (keysAndValues
          (mkCall theLogger 0 Info "provided"
             ["constructor" : value; "bytes.NewBuffer()" : value;
              "module" : value; "myModule" : value;
              "type" : value; "*bytes.Buffer" : value]))
  = keys (keysAndValues
            (mkCall theLogger 0 Info "provided"
               ["constructor" : value; "strings.NewReader()" : value;
                "module" : value; "other" : value;
                "type" : value; "io.Reader" : value])).
Proof.
  apply (X15_keys_fixed_by_variant (WithLogr theLogger) (WithLogr theLogger)
           (Provided "bytes.NewBuffer()" ["*bytes.Buffer"] "myModule" None false)
           (Provided "strings.NewReader()" ["io.Writer"; "io.Reader"] "other"
              someError false)).
  - reflexivity.
  - reflexivity.
  - reflexivity.
  - left; reflexivity.
  - right; left; reflexivity.
  - reflexivity.
Defined.

(** X16: the minimal logger, too, leaves its receiver alone and only adds to
    the calls made before; what it adds is at most one call, an [Info] call
    on its own logger, never an [Error] call, also for events that carry an
    error. *)
Theorem X16_minimal_logger_frame (event : Event) (w : Minimal.World) :
  runState (Minimal.LogEvent event) w
  = (tt, Minimal.mkWorld (Minimal.this w)
           (Minimal.calls w ++ Minimal.emitted (Minimal.this w) event)) /\
  (List.length (Minimal.emitted (Minimal.this w) event) <= 1)%nat /\
  Forall (fun c => isInfo c = true /\
                   sink c = Minimal.Logger (Minimal.this w))
    (Minimal.emitted (Minimal.this w) event).
Proof.
  destruct w as [l before].
  destruct event; cbn; rewrite ?app_nil_r; repeat split;
    try lia; repeat constructor.
Qed.
